(** * Log analyzer: coordinator and worker

    A shallow embedding of [src/worker.py] and [src/coordinator.py].

    Conventions of the embedding.
    - Python [int] is [Z]; a Python [str] is a [string] (a sequence of
      code points below 256, which is what a log file read under a
      single-byte encoding gives; character offsets and byte offsets
      then coincide, and a text free of carriage returns is read as it
      is stored).
    - Python's true division [/] on integers is the exact rational
      quotient in [Q], kept in lowest terms; the [float] Python returns
      is the double nearest to that rational (rounding and the overflow
      of the float range are not part of the embedding).
    - An exception is a value of [exn]; a call either returns ([Ok]) or
      raises ([Raise]).
    - The file system is a finite view [filepath -> option content].
      Offsets and sizes are taken within the reach of a seek and a
      read (below 2^31); past it the interpreter has errors of its own
      that are not part of the embedding.
    - Name lookup is part of the embedding of [coordinator.py]: the
      module imports [argparse] only and the class defines no
      [assign_task], so the global [os] raises [NameError] and the
      attribute [self.assign_task] raises [AttributeError]. *)

From Stdlib Require Import ZArith QArith List String Ascii Bool Lia Permutation.
Import ListNotations.

Local Open Scope Z_scope.

(** ** Python primitives used by the two modules *)

Module Py.

Inductive exn : Type :=
| ZeroDivisionError
| ValueError
| KeyError
| FileNotFoundError
| NameError
| AttributeError.

Inductive result (A : Type) : Type :=
| Ok (a : A)
| Raise (e : exn).

Arguments Ok {A} a.
Arguments Raise {A} e.

Definition bind {A B : Type} (r : result A) (k : A -> result B) : result B :=
  match r with
  | Ok a => k a
  | Raise e => Raise e
  end.

(** [str.isspace] on the code points below 256. *)
Definition is_space (c : ascii) : bool :=
  let n := nat_of_ascii c in
  ((9 <=? n) && (n <=? 13) || (28 <=? n) && (n <=? 32)
   || (n =? 133) || (n =? 160))%nat.

Definition is_digit (c : ascii) : bool :=
  let n := nat_of_ascii c in ((48 <=? n) && (n <=? 57))%nat.

Definition digit_value (c : ascii) : Z := Z.of_nat (nat_of_ascii c) - 48.

(** [c in chars], for a character [c]. *)
Fixpoint char_in (c : ascii) (chars : string) : bool :=
  match chars with
  | EmptyString => false
  | String d chars' => Ascii.eqb c d || char_in c chars'
  end.

Fixpoint lstrip_with (p : ascii -> bool) (s : string) : string :=
  match s with
  | EmptyString => EmptyString
  | String c s' => if p c then lstrip_with p s' else s
  end.

Fixpoint rstrip_with (p : ascii -> bool) (s : string) : string :=
  match s with
  | EmptyString => EmptyString
  | String c s' =>
      match rstrip_with p s' with
      | EmptyString => if p c then EmptyString else String c EmptyString
      | r => String c r
      end
  end.

(** [s.strip()] *)
Definition strip (s : string) : string :=
  rstrip_with is_space (lstrip_with is_space s).

(** [s.strip(chars)] *)
Definition strip_chars (chars s : string) : string :=
  rstrip_with (fun c => char_in c chars) (lstrip_with (fun c => char_in c chars) s).

(** [pat in s], for strings. *)
Fixpoint str_in (pat s : string) : bool :=
  String.prefix pat s ||
  match s with
  | EmptyString => false
  | String _ s' => str_in pat s'
  end.

(** [s.split(sep)] for a non-empty [sep]: the pieces between the
    leftmost, non-overlapping occurrences of [sep].  [skip] counts the
    characters of a matched separator still to be passed over; the head
    of the result is the piece being read. *)
Fixpoint split_from (sep : string) (skip : nat) (s : string) : list string :=
  match s with
  | EmptyString => [EmptyString]
  | String c s' =>
      match skip with
      | S k => split_from sep k s'
      | O =>
          if String.prefix sep s
          then EmptyString :: split_from sep (String.length sep - 1) s'
          else match split_from sep 0 s' with
               | piece :: pieces => String c piece :: pieces
               | [] => [String c EmptyString]
               end
      end
  end.

Definition split (sep s : string) : list string := split_from sep 0 s.

(** The digits of an integer literal, with single underscores allowed
    between digits. *)
Fixpoint int_digits (acc : Z) (after_digit : bool) (s : string) : option Z :=
  match s with
  | EmptyString => if after_digit then Some acc else None
  | String c s' =>
      if is_digit c then int_digits (10 * acc + digit_value c) true s'
      else if Ascii.eqb c "_"%char
           then (if after_digit then int_digits acc false s' else None)
           else None
  end.

(** [int(s)] in base ten: surrounding white space, an optional sign,
    digits; anything else raises [ValueError].  The interpreter's
    configurable limit on the number of digits is taken as switched
    off. *)
Definition int (s : string) : result Z :=
  let body := strip s in
  let signed :=
    match body with
    | String "+"%char r => (1, r)
    | String "-"%char r => (-1, r)
    | _ => (1, body)
    end in
  match int_digits 0 false (snd signed) with
  | Some n => Ok (fst signed * n)
  | None => Raise ValueError
  end.

(** [a // b] *)
Definition floordiv (a b : Z) : result Z :=
  if b =? 0 then Raise ZeroDivisionError else Ok (a / b).

(** [a / b] *)
Definition truediv (a b : Z) : result Q :=
  if b =? 0 then Raise ZeroDivisionError
  else Ok (Qred (inject_Z a / inject_Z b)).

Definition len {A : Type} (l : list A) : Z := Z.of_nat (List.length l).

Definition sum (l : list Z) : Z := fold_left Z.add l 0.

(** [d[k]] and [d.pop(k)] on a dict kept in insertion order. *)
Fixpoint dict_get {V : Type} (k : string) (d : list (string * V)) : option V :=
  match d with
  | [] => None
  | (k', v) :: d' => if String.eqb k k' then Some v else dict_get k d'
  end.

Definition dict_del {V : Type} (k : string) (d : list (string * V)) : list (string * V) :=
  filter (fun kv => negb (String.eqb k (fst kv))) d.

Definition dict_pop {V : Type} (k : string) (d : list (string * V))
  : option (V * list (string * V)) :=
  match dict_get k d with
  | Some v => Some (v, dict_del k d)
  | None => None
  end.

End Py.

Notation "x <- e ;; k" := (Py.bind e (fun x => k))
  (at level 61, e at next level, right associativity).

(** ** [src/worker.py] *)

Module Worker.
Import Py.

Local Open Scope string_scope.

(** The file store: the text of each readable file. *)
Definition files : Type := string -> option string.

(** The [metrics] dict of [process_chunk]. *)
Record Metrics : Type := mkMetrics {
  error_count : Z;
  response_times : list Z;
  request_count : Z
}.

(** The dict [process_chunk] returns. *)
Record Report : Type := mkReport {
  error_rate : Q;
  avg_response_time : Q;
  report_request_count : Z
}.

Definition metrics0 : Metrics := mkMetrics 0 [] 0.

(** [int(line.split("in")[-1].strip("ms"))] *)
Definition time_taken (line : string) : result Z :=
  int (strip_chars "ms" (last (split "in" line) "")).

(** One iteration of the loop over [lines]. *)
Definition scan_line (metrics : Metrics) (line : string) : result Metrics :=
  let metrics :=
    if str_in "ERROR" line
    then mkMetrics (error_count metrics + 1) (response_times metrics)
                   (request_count metrics)
    else metrics in
  if str_in "Request processed in" line
  then t <- time_taken line ;;
       Ok (mkMetrics (error_count metrics) (response_times metrics ++ [t])
                     (request_count metrics + 1))
  else Ok metrics.

Fixpoint scan (metrics : Metrics) (lines : list string) : result Metrics :=
  match lines with
  | [] => Ok metrics
  | line :: lines' => m <- scan_line metrics line ;; scan m lines'
  end.

(** [chunk.strip().split("\n")] *)
Definition lines_of (chunk : string) : list string :=
  split (String "010"%char "") (strip chunk).

(** The summary computed after the loop. *)
Definition summarise (lines : list string) (metrics : Metrics) : result Report :=
  avg <- match response_times metrics with
         | [] => Ok 0%Q
         | _ :: _ => truediv (sum (response_times metrics))
                             (len (response_times metrics))
         end ;;
  rate <- truediv (error_count metrics) (len lines) ;;
  Ok (mkReport rate avg (request_count metrics)).

(** The body of [process_chunk] once [chunk] has been read. *)
Definition process_text (chunk : string) : result Report :=
  let lines := lines_of chunk in
  metrics <- scan metrics0 lines ;;
  summarise lines metrics.

(** [file.seek(start)] then [file.read(size)]: a negative [start] is
    refused, a negative [size] reads to the end of the file, and a read
    past the end is cut short. *)
Definition read_at (content : string) (start size : Z) : result string :=
  if (start <? 0)%Z then Raise ValueError
  else
    let n := Z.to_nat start in
    if (size <? 0)%Z
    then Ok (substring n (String.length content - n) content)
    else Ok (substring n (Z.to_nat size) content).

Definition process_chunk (fs : files) (filepath : string) (start size : Z)
  : result Report :=
  match fs filepath with
  | None => Raise FileNotFoundError
  | Some content =>
      chunk <- read_at content start size ;;
      process_text chunk
  end.

End Worker.

(** ** Results and the global aggregate *)

Module Aggregator.
Import Py Worker.

(** Modelled from the spec: the Result record of the data model (error
    count, ordered response-time samples, request count, source line
    count).  The repository declares the store [self.results] and never
    writes to it. *)
Record Result : Type := mkResult {
  res_error_count : Z;
  res_response_times : list Z;
  res_request_count : Z;
  res_line_count : Z
}.

(** The per-result average, as [process_chunk] reports it: [0] without
    samples. *)
Definition average (samples : list Z) : Q :=
  match samples with
  | [] => 0%Q
  | _ :: _ => Qred (inject_Z (sum samples) / inject_Z (len samples))
  end.







End Aggregator.

(** ** [src/coordinator.py] *)

Module Coordinator.
Import Py Worker.

Local Open Scope string_scope.

(** The value [self.workers] holds for a worker: a dict with string
    keys, of which the code reads ["filepath"]. *)
Definition worker_data : Type := list (string * string).

Record Coordinator : Type := mkCoordinator {
  workers : list (string * worker_data);
  results : list (string * Aggregator.Result);
  port : Z
}.

(** [Coordinator.__init__] *)
Definition init (port : Z) : Coordinator := mkCoordinator [] [] port.

(** The names bound at module level in [coordinator.py]: the module
    it imports and the class it defines. *)
Definition module_names : list string := ["argparse"; "Coordinator"].

(** The attributes of a [Coordinator]: the fields [__init__] sets and
    the methods of the class. *)
Definition attributes : list string :=
  ["workers"; "results"; "port";
   "__init__"; "start"; "distribute_work"; "handle_worker_failure"].

(** The lookup of a global name. *)
Definition global_name (name : string) : result unit :=
  if existsb (String.eqb name) module_names then Ok tt else Raise NameError.

(** The lookup of [self.name]. *)
Definition attribute (name : string) : result unit :=
  if existsb (String.eqb name) attributes then Ok tt else Raise AttributeError.

(** The arguments of one call [self.assign_task(worker_id, filepath,
    start, chunk_size)]. *)
Record Assignment : Type := mkAssignment {
  worker_id : string;
  filepath : string;
  start : Z;
  size : Z
}.

(** [os.path.getsize(filepath)], once [os] has been found. *)
Definition getsize (fs : files) (filepath : string) : result Z :=
  match fs filepath with
  | Some content => Ok (Z.of_nat (String.length content))
  | None => Raise FileNotFoundError
  end.

(** The loop of [distribute_work] over [self.workers.items()], from the
    offset [start]: each pass looks up [self.assign_task] and calls it;
    the calls issued are returned in order. *)
Fixpoint assign_chunks (ws : list (string * worker_data)) (filepath : string)
    (start chunk_size : Z) : result (list Assignment) :=
  match ws with
  | [] => Ok []
  | (worker_id, _) :: ws' =>
      _ <- attribute "assign_task" ;;
      rest <- assign_chunks ws' filepath (start + chunk_size) chunk_size ;;
      Ok (mkAssignment worker_id filepath start chunk_size :: rest)
  end.

Definition distribute_work (self : Coordinator) (fs : files) (filepath : string)
  : result (list Assignment) :=
  _ <- global_name "os" ;;
  file_size <- getsize fs filepath ;;
  chunk_size <- floordiv file_size (len (workers self)) ;;
  assign_chunks (workers self) filepath 0 chunk_size.

Definition set_workers (self : Coordinator) (ws : list (string * worker_data))
  : Coordinator :=
  mkCoordinator ws (results self) (port self).

(** [handle_worker_failure]: the coordinator it leaves behind (the pop
    stays done when a later step raises) and the outcome of the call. *)
Definition handle_worker_failure (self : Coordinator) (fs : files)
    (worker_id : string) : Coordinator * result (list Assignment) :=
  match dict_pop worker_id (workers self) with
  | None => (self, Raise KeyError)
  | Some (failed_task, rest) =>
      let self' := set_workers self rest in
      match dict_get "filepath" failed_task with
      | None => (self', Raise KeyError)
      | Some path => (self', distribute_work self' fs path)
      end
  end.

End Coordinator.

(** ** The task table *)

Module TaskTable.
Import Py Worker Aggregator Coordinator.

(** Modelled from the spec: the lifecycle states of a Task and the
    health states of a Worker (data model).  The repository has neither
    a task table nor a health state. *)
Inductive TaskState : Type :=
| Pending
| Assigned
| InProgress
| Completed
| FailedPermanently.

Inductive Health : Type :=
| Registered
| Idle
| Busy
| Unhealthy
| Failed.

(** Modelled from the spec: the Task record (identity, byte range,
    retry count, state, owning worker). *)
Record Task : Type := mkTask {
  task_id : string;
  task_file : string;
  task_offset : Z;
  task_length : Z;
  retry_count : Z;
  state : TaskState;
  owner : option string
}.

(** The coordinator of [src/coordinator.py] (registry and results
    store) together with the health states and the task table the spec
    adds to it. *)
Record Cluster : Type := mkCluster {
  coordinator : Coordinator;
  health : list (string * Health);
  tasks : list Task
}.

Definition active (st : TaskState) : bool :=
  match st with
  | Assigned | InProgress => true
  | _ => false
  end.

Definition is_pending (st : TaskState) : bool :=
  match st with
  | Pending => true
  | _ => false
  end.

Definition is_idle (h : option Health) : bool :=
  match h with
  | Some Idle => true
  | _ => false
  end.

Definition owned_by (w : string) (t : Task) : bool :=
  match owner t with
  | Some w' => String.eqb w w'
  | None => false
  end.

Definition set_state (t : Task) (st : TaskState) (o : option string) (retries : Z)
  : Task :=
  mkTask (task_id t) (task_file t) (task_offset t) (task_length t) retries st o.

Fixpoint find_task (tid : string) (ts : list Task) : option Task :=
  match ts with
  | [] => None
  | t :: ts' => if String.eqb tid (task_id t) then Some t else find_task tid ts'
  end.

Definition task_state (s : Cluster) (tid : string) : option TaskState :=
  option_map state (find_task tid (tasks s)).

(** [d[k] = v] on a dict kept in insertion order. *)
Fixpoint dict_set {V : Type} (k : string) (v : V) (d : list (string * V))
  : list (string * V) :=
  match d with
  | [] => [(k, v)]
  | (k', v') :: d' =>
      if String.eqb k k' then (k, v) :: d' else (k', v') :: dict_set k v d'
  end.

Definition store_result (c : Coordinator) (tid : string) (r : Result) : Coordinator :=
  mkCoordinator (workers c) (dict_set tid r (results c)) (port c).

(** The first Pending task, in table order, goes to [w]. *)
Fixpoint assign_next (w : string) (ts : list Task) : list Task :=
  match ts with
  | [] => []
  | t :: ts' =>
      if is_pending (state t)
      then set_state t Assigned (Some w) (retry_count t) :: ts'
      else t :: assign_next w ts'
  end.

(** Modelled from the spec: one matching pass of the Scheduler with the
    Idle worker [w] (the next Pending task becomes Assigned to [w], [w]
    becomes Busy); without a Pending task or when [w] is not Idle
    nothing changes.  The repository has no scheduler. *)
Definition schedule (s : Cluster) (w : string) : Cluster :=
  if is_idle (dict_get w (health s)) && existsb (fun t => is_pending (state t)) (tasks s)
  then mkCluster (coordinator s) (dict_set w Busy (health s))
                 (assign_next w (tasks s))
  else s.

Definition complete (tid : string) (t : Task) : Task :=
  if String.eqb tid (task_id t)
  then set_state t Completed (owner t) (retry_count t)
  else t.

(** Modelled from the spec: the ResultAggregator receiving a Result for
    task [tid] from worker [w].  A Completed task makes the report a
    duplicate, discarded; an Assigned or InProgress task owned by [w]
    stores the result, becomes Completed, and [w] becomes Idle; any
    other report is discarded.  The repository has no code that accepts
    a result. *)
Definition accept_result (s : Cluster) (tid w : string) (r : Result) : Cluster :=
  match find_task tid (tasks s) with
  | None => s
  | Some t =>
      if active (state t) && owned_by w t
      then mkCluster (store_result (coordinator s) tid r)
                     (dict_set w Idle (health s))
                     (map (complete tid) (tasks s))
      else s
  end.

Definition max_retries : Z := 3.

Definition revert (w : string) (t : Task) : Task :=
  if active (state t) && owned_by w t
  then if (max_retries <? retry_count t + 1)%Z
       then set_state t FailedPermanently None (retry_count t + 1)
       else set_state t Pending None (retry_count t + 1)
  else t.

(** Modelled from the spec: the task-table half of FailureRecovery,
    which [handle_worker_failure] does not have: the tasks Assigned or
    InProgress to [w] go back to Pending with one more retry, or to
    FailedPermanently past the retry limit. *)
Definition requeue (s : Cluster) (w : string) : Cluster :=
  mkCluster (coordinator s) (health s) (map (revert w) (tasks s)).

(** Failure recovery as the repository has it: [w] is marked Failed and
    [handle_worker_failure] runs on the coordinator; the task table is
    not touched. *)
Definition worker_failed (s : Cluster) (fs : files) (w : string) : Cluster :=
  mkCluster (fst (handle_worker_failure (coordinator s) fs w))
            (dict_set w Failed (health s))
            (tasks s).

Inductive operation : Type :=
| Schedule (w : string)
| Accept (tid w : string) (r : Result)
| WorkerFailed (fs : files) (w : string)
| Requeue (w : string).

Definition run (s : Cluster) (o : operation) : Cluster :=
  match o with
  | Schedule w => schedule s w
  | Accept tid w r => accept_result s tid w r
  | WorkerFailed fs w => worker_failed s fs w
  | Requeue w => requeue s w
  end.

(** At job start every task is Pending and unowned and nothing is
    stored. *)
Definition initial (s : Cluster) : Prop :=
  Forall (fun t => state t = Pending /\ owner t = None) (tasks s)
  /\ results (coordinator s) = [].

Inductive reachable : Cluster -> Prop :=
| reachable_initial s : initial s -> reachable s
| reachable_run s o : reachable s -> reachable (run s o).

(** A task in hand has exactly one owning worker. *)
Definition single_owner (t : Task) : Prop :=
  active (state t) = true -> exists! w, owner t = Some w.


End TaskTable.

(** ** The properties under study *)

Module Props.
Import Py Worker Aggregator Coordinator.

Local Open Scope string_scope.

Definition newline : ascii := "010"%char.

(** The text of a file holding the lines [ls], each ended by a line
    terminator. *)
Definition unlines (ls : list string) : string :=
  fold_right (fun l rest => l ++ String newline rest) "" ls.

(** *** Lines *)

Fixpoint no_newline (l : string) : bool :=
  match l with
  | EmptyString => true
  | String c l' => negb (Ascii.eqb c newline) && no_newline l'
  end.

(** The line begins with a character that is not white space. *)
Definition starts_tidy (l : string) : bool :=
  match l with
  | EmptyString => false
  | String c _ => negb (is_space c)
  end.

(** The line ends with a character that is not white space. *)
Fixpoint ends_tidy (l : string) : bool :=
  match l with
  | EmptyString => false
  | String c EmptyString => negb (is_space c)
  | String _ l' => ends_tidy l'
  end.

(** A line of text with no white space at either end. *)
Definition tidy (l : string) : bool :=
  no_newline l && starts_tidy l && ends_tidy l.

Definition has_error (l : string) : bool := str_in "ERROR" l.

Definition is_request (l : string) : bool := str_in "Request processed in" l.

(** The durations the request lines of [ls] carry, in file order. *)
Definition durations (ls : list string) : list (result Z) :=
  map time_taken (filter is_request ls).

(** A line carrying the processing-time pattern with a duration that is
    no integer literal. *)
Definition malformed (l : string) : Prop :=
  is_request l = true /\ time_taken l = Raise ValueError.

Definition returns_normally {A : Type} (r : result A) : Prop :=
  exists a, r = Ok a.




(** A non-empty run of tidy lines. *)
Definition whole_lines (g : list string) : bool :=
  match g with
  | [] => false
  | _ :: _ => forallb tidy g
  end.


(** *** Folding the reports of chunks *)










(** *** The inputs within reach *)

(** Offsets and sizes a seek and a read take as they are. *)
Definition offset_limit : Z := (2 ^ 31)%Z.

Definition in_reach (range : Z * Z) : Prop :=
  (0 <= fst range < offset_limit)%Z
  /\ (- offset_limit < snd range < offset_limit)%Z.

(** Durations a float holds exactly. *)
Definition duration_limit : Z := (2 ^ 53)%Z.


(** *** Failure handling *)



(** The registry still holds the entry it had for [w]. *)
Definition entry_retained (w : string) (before after : Coordinator) : Prop :=
  dict_get w (workers after) = dict_get w (workers before)
  /\ dict_get w (workers after) <> None.

End Props.

(** ** Sample inputs *)

Module Samples.
Import Py Worker Aggregator Coordinator Props.

Local Open Scope string_scope.

(** A file store holding one file. *)
Definition one_file (path content : string) : files :=
  fun p => if String.eqb p path then Some content else None.

(** A registry entry as [handle_worker_failure] reads it. *)
Definition entry (w path : string) : string * worker_data :=
  (w, [("filepath", path)]).

Definition pool (ws : list string) : Coordinator :=
  mkCoordinator (map (fun w => entry w "app.log") ws) [] 8000.


Definition two_lines : string := unlines ["ERROR a"; "INFO b"].


Definition twelve_bytes : string := unlines ["ERROR"; "ok ok"].



Definition bad_duration : string :=
  unlines ["Request processed in abcms"; "ERROR x"].

Definition ten_lines : list string :=
  ["INFO start"; "ERROR a"; "Request processed in 10ms"; "INFO b";
   "Request processed in 20ms"; "ERROR c"; "INFO d";
   "Request processed in 30ms"; "INFO e"; "INFO end"].


(** Two registered, idle workers and the two tasks of a 12-byte file,
    before any scheduling. *)
Definition fresh_cluster : TaskTable.Cluster :=
  TaskTable.mkCluster
    (pool ["w1"; "w2"])
    [("w1", TaskTable.Idle); ("w2", TaskTable.Idle)]
    [TaskTable.mkTask "app.log#0" "app.log" 0 6 0 TaskTable.Pending None;
     TaskTable.mkTask "app.log#1" "app.log" 6 6 0 TaskTable.Pending None].

Definition a_result : Result := mkResult 1 [] 0 1.


End Samples.

(** ** Further notions used to describe the behaviour of the code *)

From Stdlib Require DecimalString DecimalNat DecimalFacts Qcanon.

Module Behaviour.
Import Py Worker Aggregator Coordinator Props.

Local Open Scope string_scope.

(** The text holds white space only. *)
Fixpoint blank (s : string) : bool :=
  match s with
  | EmptyString => true
  | String c s' => is_space c && blank s'
  end.

(** Every character of [s] passes the test [q]. *)
Fixpoint every (q : ascii -> bool) (s : string) : bool :=
  match s with
  | EmptyString => true
  | String c s' => q c && every q s'
  end.

(** Every character of [s] is one of [chars]. *)
Definition all_in (chars s : string) : bool :=
  every (fun c => char_in c chars) s.

(** What [process_chunk] returns for a chunk without content. *)
Definition empty_report : Report := mkReport 0 0 0.

(** The natural number [n] written in decimal. *)
Definition decimal (n : nat) : string :=
  DecimalString.NilEmpty.string_of_uint (Nat.to_uint n).

(** A request line as a logger writes it: the pattern, the duration in
    decimal, and a unit. *)
Definition request_line (n : nat) (unit : string) : string :=
  "Request processed in " ++ decimal n ++ unit.

End Behaviour.

(** * Facts *)

Import Py Worker Aggregator Coordinator Props.

(** ** Exceptions *)

Lemma bind_ok {A B : Type} (r : result A) (k : A -> result B) (b : B) :
  (x <- r ;; k x) = Ok b -> exists a, r = Ok a /\ k a = Ok b.
Proof.
  destruct r as [a | e]; simpl; intros H.
  - exists a; split; [reflexivity | exact H].
  - discriminate H.
Qed.

Lemma bind_raise {A B : Type} (r : result A) (k : A -> result B) (e : exn) :
  (x <- r ;; k x) = Raise e ->
  r = Raise e \/ exists a, r = Ok a /\ k a = Raise e.
Proof.
  destruct r as [a | e']; simpl; intros H.
  - right; exists a; split; [reflexivity | exact H].
  - left; congruence.
Qed.

Lemma int_raises (s : string) (e : exn) : int s = Raise e -> e = ValueError.
Proof.
  unfold int.
  destruct (int_digits 0 false _); intros H; [discriminate H | congruence].
Qed.

Lemma scan_line_raises (m : Metrics) (line : string) (e : exn) :
  scan_line m line = Raise e -> e = ValueError.
Proof.
  unfold scan_line, time_taken.
  destruct (str_in "Request processed in" line); [| discriminate].
  intros H; apply bind_raise in H as [H | (t & _ & H)].
  - exact (int_raises _ _ H).
  - discriminate H.
Qed.

Lemma scan_raises (lines : list string) :
  forall (m : Metrics) (e : exn), scan m lines = Raise e -> e = ValueError.
Proof.
  induction lines as [| line lines IH]; simpl; intros m e H.
  - discriminate H.
  - apply bind_raise in H as [H | (m' & _ & H)].
    + exact (scan_line_raises _ _ _ H).
    + exact (IH _ _ H).
Qed.

(** ** Splitting *)

Lemma split_from_nonempty (sep : string) (s : string) :
  forall skip, split_from sep skip s <> [].
Proof.
  induction s as [| c s IH]; intros skip; cbn [split_from].
  - discriminate.
  - destruct skip as [| k]; [| apply IH].
    destruct (String.prefix sep (String c s)); [discriminate |].
    destruct (split_from sep 0 s); discriminate.
Qed.

Lemma lines_of_nonempty (chunk : string) : (1 <= len (lines_of chunk))%Z.
Proof.
  unfold lines_of, split, len.
  pose proof (split_from_nonempty (String "010" "") (strip chunk) 0) as H.
  destruct (split_from _ 0 (strip chunk)); [congruence | simpl; lia].
Qed.


(** ** The loop over the lines *)

Lemma scan_malformed (lines : list string) :
  forall m, Exists malformed lines -> scan m lines = Raise ValueError.
Proof.
  induction lines as [| line lines IH]; intros m H.
  - inversion H.
  - cbn [scan].
    destruct (scan_line m line) as [m' | e] eqn:E; cbn [bind].
    + inversion H as [? ? [Hreq Htime] | ? ? Hrest]; subst.
      * unfold scan_line in E; unfold is_request in Hreq.
        rewrite Hreq, Htime in E; discriminate E.
      * now apply IH.
    + now rewrite (scan_line_raises _ _ _ E).
Qed.

(** ** Dicts *)

Lemma dict_get_del_same {V : Type} (k : string) (d : list (string * V)) :
  dict_get k (dict_del k d) = None.
Proof.
  induction d as [| [k' v] d IH]; simpl; [reflexivity |].
  destruct (String.eqb k k') eqn:E; simpl; [exact IH |].
  now rewrite E.
Qed.

Lemma dict_get_del_other {V : Type} (k k' : string) (d : list (string * V)) :
  k' <> k -> dict_get k' (dict_del k d) = dict_get k' d.
Proof.
  intros Hne; induction d as [| [k0 v] d IH]; simpl; [reflexivity |].
  destruct (String.eqb_spec k k0) as [-> | Hk]; simpl.
  - destruct (String.eqb_spec k' k0) as [-> | _]; [congruence | exact IH].
  - now rewrite IH.
Qed.

Lemma handle_worker_failure_registry
    (self : Coordinator) (fs : files) (w : string) (task : worker_data) :
  dict_get w (workers self) = Some task ->
  fst (handle_worker_failure self fs w)
  = set_workers self (dict_del w (workers self)).
Proof.
  intros H; unfold handle_worker_failure, dict_pop; rewrite H.
  now destruct (dict_get "filepath" task).
Qed.


(** ** Distribution *)

Lemma distribute_work_raises (self : Coordinator) (fs : files) (path : string) :
  distribute_work self fs path = Raise NameError.
Proof. reflexivity. Qed.


(** ** Lines of a text *)

Local Open Scope string_scope.

Lemma append_assoc (a b c : string) : (a ++ b) ++ c = a ++ (b ++ c).
Proof.
  induction a as [| x a IH]; simpl; [reflexivity | now rewrite IH].
Qed.

Lemma unlines_app (xs ys : list string) :
  unlines (xs ++ ys) = unlines xs ++ unlines ys.
Proof.
  induction xs as [| x xs IH]; simpl; [reflexivity |].
  rewrite IH, append_assoc; reflexivity.
Qed.

Lemma prefix_newline (c : ascii) (s : string) :
  String.prefix (String newline "") (String c s) = Ascii.eqb c newline.
Proof.
  cbn [String.prefix].
  destruct (ascii_dec newline c) as [<- | Hne].
  - now destruct s.
  - symmetry; apply Ascii.eqb_neq; congruence.
Qed.

Lemma split_line (l rest : string) :
  no_newline l = true ->
  split (String newline "") (l ++ String newline rest)
  = l :: split (String newline "") rest.
Proof.
  unfold split; induction l as [| c l IH]; intros Hl.
  - cbn [append split_from]. rewrite prefix_newline, Ascii.eqb_refl.
    reflexivity.
  - cbn [no_newline] in Hl; apply andb_true_iff in Hl as [Hc Hl].
    cbn [append split_from]. rewrite prefix_newline.
    apply negb_true_iff in Hc; rewrite Hc, (IH Hl); reflexivity.
Qed.

Lemma split_last_line (l : string) :
  no_newline l = true -> split (String newline "") l = [l].
Proof.
  unfold split; induction l as [| c l IH]; intros Hl; [reflexivity |].
  cbn [no_newline] in Hl; apply andb_true_iff in Hl as [Hc Hl].
  cbn [split_from]. rewrite prefix_newline.
  apply negb_true_iff in Hc; rewrite Hc, (IH Hl); reflexivity.
Qed.

Lemma split_lines (ls : list string) (l : string) :
  forallb no_newline ls = true ->
  no_newline l = true ->
  split (String newline "") (unlines ls ++ l) = (ls ++ [l])%list.
Proof.
  induction ls as [| x ls IH]; intros Hls Hl.
  - now apply split_last_line.
  - cbn [forallb] in Hls; apply andb_true_iff in Hls as [Hx Hls].
    cbn [unlines fold_right]; fold (unlines ls).
    rewrite append_assoc. cbn [append].
    rewrite (split_line _ _ Hx), (IH Hls Hl); reflexivity.
Qed.

Lemma lstrip_tidy (p : ascii -> bool) (l rest : string) :
  match l with EmptyString => false | String c _ => negb (p c) end = true ->
  lstrip_with p (l ++ rest) = l ++ rest.
Proof.
  destruct l as [| c l]; [discriminate |]; intros H.
  cbn [append lstrip_with].
  apply negb_true_iff in H; now rewrite H.
Qed.

Lemma rstrip_spaces (p : ascii -> bool) (t : string) :
  lstrip_with p t = "" -> rstrip_with p t = "".
Proof.
  induction t as [| c t IH]; [reflexivity |]; cbn [lstrip_with rstrip_with].
  destruct (p c) eqn:E; [| discriminate].
  intros H; now rewrite (IH H).
Qed.

Lemma ends_tidy_app (s l : string) :
  ends_tidy l = true -> ends_tidy (s ++ l) = true.
Proof.
  intros Hl; induction s as [| c s IH]; [exact Hl |].
  cbn [append ends_tidy]. rewrite IH.
  destruct (s ++ l) eqn:E; [| reflexivity].
  rewrite <- E in IH. destruct s; simpl in E; subst; discriminate.
Qed.

Lemma rstrip_tidy (l t : string) :
  ends_tidy l = true ->
  lstrip_with is_space t = "" ->
  rstrip_with is_space (l ++ t) = l.
Proof.
  intros Hl Ht; induction l as [| c l IH]; [discriminate |].
  cbn [append rstrip_with].
  destruct l as [| c' l].
  - cbn [append]. rewrite (rstrip_spaces _ _ Ht).
    cbn [ends_tidy] in Hl; apply negb_true_iff in Hl; now rewrite Hl.
  - rewrite IH by exact Hl. reflexivity.
Qed.

(** The lines [process_chunk] sees in a text of whole lines are those
    lines, provided the text neither begins nor ends (before its last
    line terminator) with white space. *)
Lemma lines_of_unlines (ls : list string) :
  ls <> [] ->
  forallb no_newline ls = true ->
  starts_tidy (hd "" ls) = true ->
  ends_tidy (last ls "") = true ->
  lines_of (unlines ls) = ls.
Proof.
  intros Hne Hnl Hhd Hlast.
  destruct (exists_last Hne) as (init & l & ->).
  rewrite last_last in Hlast.
  rewrite forallb_app in Hnl; apply andb_true_iff in Hnl as [Hinit Hl].
  cbn [forallb] in Hl; rewrite andb_true_r in Hl.
  unfold lines_of, strip.
  assert (Hl' : lstrip_with is_space (unlines (init ++ [l])) = unlines (init ++ [l])).
  { destruct init as [| x init]; cbn [app hd] in Hhd;
      cbn [app unlines fold_right]; now apply lstrip_tidy. }
  rewrite Hl', unlines_app.
  cbn [unlines fold_right].
  replace (unlines init ++ l ++ String newline "")
    with ((unlines init ++ l) ++ String newline "") by apply append_assoc.
  rewrite rstrip_tidy.
  - now apply split_lines.
  - now apply ends_tidy_app.
  - reflexivity.
Qed.

(** ** Sums and metrics *)

Lemma fold_left_add (l : list Z) (a : Z) :
  fold_left Z.add l a = (a + fold_left Z.add l 0)%Z.
Proof.
  revert a; induction l as [| x l IH]; intros a; cbn [fold_left].
  - lia.
  - rewrite (IH (a + x)%Z), (IH (0 + x)%Z); lia.
Qed.

Lemma sum_cons (x : Z) (l : list Z) : sum (x :: l) = (x + sum l)%Z.
Proof. unfold sum; cbn [fold_left]; rewrite fold_left_add; lia. Qed.


Lemma sum_permutation (a b : list Z) : Permutation a b -> sum a = sum b.
Proof.
  induction 1 as [| x a b _ IH | x y a | a b c _ IH1 _ IH2];
    rewrite ?sum_cons; lia.
Qed.


Lemma substring_all (s : string) : substring 0 (String.length s) s = s.
Proof.
  induction s as [| c s IH]; [reflexivity |].
  cbn [String.length substring]; now rewrite IH.
Qed.

Lemma read_at_all (content : string) :
  read_at content 0 (Z.of_nat (String.length content)) = Ok content.
Proof.
  unfold read_at.
  destruct (Z.ltb_spec (Z.of_nat (String.length content)) 0) as [H | _]; [lia |].
  cbn. now rewrite Nat2Z.id, substring_all.
Qed.

(** The loop over lines whose request lines all carry integer
    durations: it counts the error lines and collects the durations. *)
Lemma scan_durations (ls : list string) :
  forall m ds,
    durations ls = map Ok ds ->
    scan m ls
    = Ok (mkMetrics (error_count m + len (filter has_error ls))
                    (response_times m ++ ds)
                    (request_count m + len ds)).
Proof.
  induction ls as [| l ls IH]; intros [ec rt rc] ds H.
  - destruct ds; [| discriminate H].
    cbn. rewrite app_nil_r, !Z.add_0_r; reflexivity.
  - unfold durations in H; cbn [filter] in H.
    cbn [scan]; unfold scan_line.
    fold (is_request l); fold (has_error l).
    destruct (is_request l) eqn:Hreq.
    + destruct ds as [| t ds]; [discriminate H |].
      cbn [map] in H; injection H as Ht H.
      rewrite Ht; cbn [bind error_count response_times request_count].
      destruct (has_error l) eqn:Herr;
        cbn [error_count response_times request_count filter];
        rewrite Herr; rewrite (IH _ ds H);
        cbn [error_count response_times request_count];
        f_equal; f_equal; unfold len; cbn [List.length map];
        rewrite <- ?app_assoc; try reflexivity; lia.
    + cbn [bind].
      destruct (has_error l) eqn:Herr;
        cbn [filter]; rewrite Herr; rewrite (IH _ ds H);
        cbn [error_count response_times request_count];
        f_equal; f_equal; unfold len; cbn [List.length]; lia.
Qed.









(** ** Reports of line-aligned chunks *)

Lemma tidy_lines (g : list string) :
  whole_lines g = true ->
  g <> []
  /\ forallb no_newline g = true
  /\ starts_tidy (hd "" g) = true
  /\ ends_tidy (last g "") = true.
Proof.
  intros H; destruct g as [| l g]; [discriminate H |].
  unfold whole_lines in H.
  assert (Hall : forall x, In x (l :: g) -> tidy x = true)
    by (now apply forallb_forall).
  split; [discriminate |]; split; [| split].
  - apply forallb_forall; intros x Hx.
    specialize (Hall x Hx); unfold tidy in Hall.
    now apply andb_true_iff in Hall as [Hall _]; apply andb_true_iff in Hall as [Hall _].
  - specialize (Hall l (or_introl eq_refl)); unfold tidy in Hall.
    now apply andb_true_iff in Hall as [Hall _]; apply andb_true_iff in Hall as [_ Hall].
  - assert (Hin : In (last (l :: g) "") (l :: g)).
    { destruct (exists_last (l := l :: g)) as (init & x & E); [discriminate |].
      rewrite E, last_last; apply in_or_app; right; now left. }
    specialize (Hall _ Hin); unfold tidy in Hall.
    now apply andb_true_iff in Hall as [_ Hall].
Qed.


Lemma process_text_unlines (ls : list string) :
  whole_lines ls = true ->
  process_text (unlines ls) = (m <- scan metrics0 ls ;; summarise ls m).
Proof.
  intros H; apply tidy_lines in H as (H1 & H2 & H3 & H4).
  unfold process_text; now rewrite lines_of_unlines.
Qed.





(** ** The fold of the reports *)









Import Samples.

(** ** Partitioning *)

(** C1: [distribute_work] hands out no chunk range.  With two workers
    registered and a 15-byte file of two lines, the call raises
    [NameError] at [os.path.getsize], the module never importing [os];
    the method [assign_task] it would call on each pass of the loop is
    not defined either. *)
Lemma distribute_work_two_workers :
  distribute_work (pool ["w1"; "w2"]%string) (one_file "app.log" two_lines) "app.log"
  = Raise NameError
  /\ global_name "os" = Raise NameError
  /\ attribute "assign_task" = Raise AttributeError.
Proof. repeat split. Qed.

(** C9: with an empty registry [distribute_work] raises [NameError] at
    [os.path.getsize]; the division of the file size by the worker
    count, which would raise [ZeroDivisionError], is not reached. *)
Lemma distribute_work_empty_registry :
  workers (init 8000) = []
  /\ distribute_work (init 8000) (one_file "app.log" two_lines) "app.log"
     = Raise NameError
  /\ floordiv (Z.of_nat (String.length two_lines)) (len (workers (init 8000)))
     = Raise ZeroDivisionError.
Proof. repeat split. Qed.

(** ** Chunk processing *)

(** C10: [process_chunk] never raises [ZeroDivisionError]: the stripped
    chunk always splits into at least one line, so the error rate has a
    positive denominator, and without response-time samples the average
    is [0], computed without a division. *)
Theorem process_chunk_never_divides_by_zero :
  (forall fs path start size,
      process_chunk fs path start size <> Raise ZeroDivisionError)
  /\ (forall chunk, (1 <= len (lines_of chunk))%Z)
  /\ (forall chunk metrics,
        response_times metrics = [] ->
        exists rate,
          summarise (lines_of chunk) metrics
          = Ok (mkReport rate 0 (request_count metrics))).
Proof.
  assert (Hsum : forall chunk m, summarise (lines_of chunk) m <> Raise ZeroDivisionError).
  { intros chunk m; unfold summarise, truediv.
    pose proof (lines_of_nonempty chunk) as Hl.
    destruct (Z.eqb_spec (len (lines_of chunk)) 0) as [E | _]; [lia |].
    destruct (response_times m) as [| t ts] eqn:Ets; cbn; [discriminate |].
    destruct (Z.eqb_spec (len (t :: ts)) 0) as [E | _].
    - unfold len in E; simpl in E; lia.
    - cbn; discriminate. }
  split; [| split].
  - intros fs path start size; unfold process_chunk.
    destruct (fs path) as [content |]; [| discriminate].
    unfold read_at.
    destruct (start <? 0)%Z; [cbn; discriminate |].
    assert (Hp : forall chunk, process_text chunk <> Raise ZeroDivisionError).
    { intros chunk H; unfold process_text in H.
      apply bind_raise in H as [H | (m & _ & H)].
      - apply scan_raises in H; discriminate H.
      - exact (Hsum _ _ H). }
    destruct (size <? 0)%Z; cbn [bind]; apply Hp.
  - exact lines_of_nonempty.
  - intros chunk m Hm; unfold summarise, truediv; rewrite Hm.
    pose proof (lines_of_nonempty chunk) as Hl.
    destruct (Z.eqb_spec (len (lines_of chunk)) 0) as [E | _]; [lia |].
    cbn; eexists; reflexivity.
Qed.

(** C6, as stated, fails: a chunk whose first line carries the pattern
    with the duration [abc] makes [process_chunk] raise; it returns no
    metrics for the remaining line. *)
Lemma process_chunk_malformed_does_not_return :
  malformed "Request processed in abcms"
  /\ ~ returns_normally
         (process_chunk (one_file "app.log" bad_duration) "app.log" 0
            (Z.of_nat (String.length bad_duration))).
Proof.
  split; [split; reflexivity |].
  intros (r & H); vm_compute in H; discriminate H.
Qed.

(** C6, amended: when a line of the chunk carries the processing-time
    pattern and its duration is no integer literal, [process_chunk]
    raises [ValueError]: the chunk is aborted and no metrics are
    returned. *)
Theorem process_chunk_malformed_raises
    (fs : files) (path content chunk : string) (start size : Z) :
  fs path = Some content ->
  read_at content start size = Ok chunk ->
  Exists malformed (lines_of chunk) ->
  process_chunk fs path start size = Raise ValueError.
Proof.
  intros Hfile Hread Hbad.
  unfold process_chunk; rewrite Hfile, Hread; cbn [bind].
  unfold process_text.
  now rewrite (scan_malformed _ metrics0 Hbad).
Qed.

Lemma process_chunk_malformed_raises_witness :
  process_chunk (one_file "app.log" bad_duration) "app.log" 0 35
  = Raise ValueError.
Proof.
  apply (process_chunk_malformed_raises (one_file "app.log" bad_duration)
           "app.log" bad_duration bad_duration 0 35).
  - reflexivity.
  - reflexivity.
  - apply Exists_cons_hd; split; reflexivity.
Defined.

(** ** Failure handling *)




(** C8, as stated, fails: after the failure of [w2] has been handled
    the registry has no entry for [w2]. *)
Lemma handle_worker_failure_drops_entry :
  dict_get "w2" (workers (pool ["w1"; "w2"; "w3"]%string))
  = Some [("filepath", "app.log")]%string
  /\ dict_get "w2"
       (workers (fst (handle_worker_failure (pool ["w1"; "w2"; "w3"]%string)
                        (one_file "app.log" twelve_bytes) "w2")))
     = None
  /\ ~ entry_retained "w2" (pool ["w1"; "w2"; "w3"]%string)
         (fst (handle_worker_failure (pool ["w1"; "w2"; "w3"]%string)
                 (one_file "app.log" twelve_bytes) "w2")).
Proof.
  split; [reflexivity |]; split; [reflexivity |].
  intros [_ H]; apply H; reflexivity.
Qed.

(** C8, amended: handling the failure of a registered worker [w]
    deletes the entry of [w] from the registry, whether or not the
    redistribution that follows succeeds; the entries of the other
    workers, the results store and the port are unchanged. *)
Theorem handle_worker_failure_pops_entry
    (self : Coordinator) (fs : files) (w : string) :
  dict_get w (workers self) <> None ->
  let self' := fst (handle_worker_failure self fs w) in
  dict_get w (workers self') = None
  /\ (forall w', w' <> w ->
        dict_get w' (workers self') = dict_get w' (workers self))
  /\ results self' = results self
  /\ port self' = port self.
Proof.
  intros Hw; cbv zeta.
  destruct (dict_get w (workers self)) as [task |] eqn:E; [| congruence].
  rewrite (handle_worker_failure_registry self fs w task E); cbn.
  split; [apply dict_get_del_same |].
  split; [intros w' Hne; now apply dict_get_del_other |].
  split; reflexivity.
Qed.

Lemma handle_worker_failure_pops_entry_witness :
  dict_get "w2"
    (workers (fst (handle_worker_failure (pool ["w1"; "w2"; "w3"]%string)
                     (one_file "app.log" twelve_bytes) "w2")))
  = None.
Proof.
  apply (handle_worker_failure_pops_entry (pool ["w1"; "w2"; "w3"]%string)
           (one_file "app.log" twelve_bytes) "w2").
  discriminate.
Defined.

(** ** The ten-line sample *)



(** ** Chunking and the aggregate *)




(** ** The task table *)

Import TaskTable.

Lemma find_task_map (f : Task -> Task) (tid : string) (ts : list Task) :
  (forall t, task_id (f t) = task_id t) ->
  find_task tid (map f ts) = option_map f (find_task tid ts).
Proof.
  intros Hid; induction ts as [| t ts IH]; [reflexivity |].
  cbn [map find_task]; rewrite Hid.
  destruct (String.eqb tid (task_id t)); [reflexivity | exact IH].
Qed.

Lemma complete_id (tid : string) (t : Task) :
  task_id (complete tid t) = task_id t.
Proof. unfold complete; now destruct (String.eqb tid (task_id t)). Qed.

Lemma revert_id (w : string) (t : Task) : task_id (revert w t) = task_id t.
Proof.
  unfold revert.
  destruct (active (state t) && owned_by w t); [| reflexivity].
  now destruct (max_retries <? retry_count t + 1)%Z.
Qed.

Lemma complete_keeps_completed (tid : string) (t : Task) :
  state t = Completed -> state (complete tid t) = Completed.
Proof. unfold complete; now destruct (String.eqb tid (task_id t)). Qed.

Lemma revert_keeps_completed (w : string) (t : Task) :
  state t = Completed -> revert w t = t.
Proof. unfold revert; now intros ->. Qed.

Lemma assign_next_keeps_completed (w tid : string) (ts : list Task) :
  option_map state (find_task tid ts) = Some Completed ->
  option_map state (find_task tid (assign_next w ts)) = Some Completed.
Proof.
  induction ts as [| t ts IH]; intros H; [discriminate H |].
  cbn [assign_next find_task] in *.
  destruct (is_pending (state t)) eqn:Hp; cbn [find_task set_state task_id].
  - destruct (String.eqb tid (task_id t)); [| exact H].
    cbn in H; injection H as H; rewrite H in Hp; discriminate Hp.
  - destruct (String.eqb tid (task_id t)); [exact H | now apply IH].
Qed.

(** No operation takes a task out of Completed. *)
Lemma run_keeps_completed (s : Cluster) (o : operation) (tid : string) :
  task_state s tid = Some Completed ->
  task_state (run s o) tid = Some Completed.
Proof.
  unfold task_state; intros H.
  destruct o as [w | tid' w r | fs w | w]; cbn [run].
  - unfold schedule.
    destruct (is_idle _ && existsb _ _); [| exact H].
    cbn [tasks]; now apply assign_next_keeps_completed.
  - unfold accept_result.
    destruct (find_task tid' (tasks s)) as [t' |]; [| exact H].
    destruct (active (state t') && owned_by w t'); [| exact H].
    cbn [tasks]; rewrite find_task_map by apply complete_id.
    destruct (find_task tid (tasks s)) as [t |]; [| discriminate H].
    cbn [option_map] in *; injection H as H.
    now rewrite (complete_keeps_completed tid' t H).
  - exact H.
  - cbn [requeue tasks]; rewrite find_task_map by apply revert_id.
    destruct (find_task tid (tasks s)) as [t |]; [| discriminate H].
    cbn [option_map] in *; injection H as H.
    now rewrite (revert_keeps_completed w t H), H.
Qed.

Lemma single_owner_assigned (t : Task) (w : string) (n : Z) :
  single_owner (set_state t Assigned (Some w) n).
Proof.
  intros _; exists w; split; [reflexivity |].
  cbn; intros w' H; now injection H.
Qed.

Lemma single_owner_idle (t : Task) :
  active (state t) = false -> single_owner t.
Proof. unfold single_owner; intros ->; discriminate. Qed.

Lemma assign_next_single_owner (w : string) (ts : list Task) :
  Forall single_owner ts -> Forall single_owner (assign_next w ts).
Proof.
  induction 1 as [| t ts Ht Hts IH]; [constructor |].
  cbn [assign_next]; destruct (is_pending (state t)).
  - constructor; [apply single_owner_assigned | exact Hts].
  - constructor; assumption.
Qed.

(** Every operation keeps each task in hand with exactly one owner. *)
Lemma run_single_owner (s : Cluster) (o : operation) :
  Forall single_owner (tasks s) -> Forall single_owner (tasks (run s o)).
Proof.
  intros H; destruct o as [w | tid w r | fs w | w]; cbn [run].
  - unfold schedule.
    destruct (is_idle _ && existsb _ _); [| exact H].
    cbn [tasks]; now apply assign_next_single_owner.
  - unfold accept_result.
    destruct (find_task tid (tasks s)) as [t' |]; [| exact H].
    destruct (active (state t') && owned_by w t'); [| exact H].
    cbn [tasks]; apply Forall_map.
    eapply Forall_impl; [| exact H].
    intros t Ht; unfold complete.
    destruct (String.eqb tid (task_id t)); [| exact Ht].
    now apply single_owner_idle.
  - exact H.
  - cbn [requeue tasks]; apply Forall_map.
    eapply Forall_impl; [| exact H].
    intros t Ht; unfold revert.
    destruct (active (state t) && owned_by w t); [| exact Ht].
    destruct (max_retries <? retry_count t + 1)%Z; now apply single_owner_idle.
Qed.





(** C7: in every reachable state of the cluster each task that is
    Assigned or InProgress has exactly one owning worker, and a task
    that is Completed stays Completed under every operation and every
    sequence of operations (scheduling, result acceptance, the failure
    handling of the repository, the requeueing of the spec). *)
Theorem task_table_invariant (s : Cluster) :
  reachable s ->
  Forall single_owner (tasks s)
  /\ (forall o tid,
        task_state s tid = Some Completed ->
        task_state (run s o) tid = Some Completed)
  /\ (forall ops tid,
        task_state s tid = Some Completed ->
        task_state (fold_left run ops s) tid = Some Completed).
Proof.
  intros Hs; split; [| split].
  - induction Hs as [s [Hinit _] | s o _ IH].
    + eapply Forall_impl; [| exact Hinit].
      intros t [Hst _]; apply single_owner_idle; now rewrite Hst.
    + now apply run_single_owner.
  - intros o tid; apply run_keeps_completed.
  - intros ops; revert s Hs; induction ops as [| o ops IH]; intros s Hs tid H.
    + exact H.
    + cbn [fold_left]; apply IH; [now constructor |].
      now apply run_keeps_completed.
Qed.

Lemma task_table_invariant_witness :
  task_state
    (run (accept_result (schedule fresh_cluster "w1") "app.log#0" "w1" a_result)
         (Requeue "w1"))
    "app.log#0"
  = Some Completed.
Proof.
  apply (task_table_invariant
           (accept_result (schedule fresh_cluster "w1") "app.log#0" "w1" a_result)).
  - apply (reachable_run _ (Accept "app.log#0" "w1" a_result)).
    apply (reachable_run _ (Schedule "w1")).
    apply reachable_initial; split; [| reflexivity].
    repeat constructor.
  - reflexivity.
Defined.

(** * Further properties of the code *)

Import Behaviour.

(** ** What the returned numbers count *)

Lemma scan_returns_durations (lines : list string) :
  forall m m', scan m lines = Ok m' -> exists ds, durations lines = map Ok ds.
Proof.
  induction lines as [| l lines IH]; intros m m' H.
  - now exists [].
  - cbn [scan] in H; apply bind_ok in H as (m1 & H1 & H).
    destruct (IH _ _ H) as (ds & Hds).
    unfold durations in *; cbn [filter]; unfold scan_line in H1.
    fold (is_request l) in H1.
    destruct (is_request l); [| now exists ds].
    apply bind_ok in H1 as (t & Ht & _).
    exists (t :: ds); cbn [map]; now rewrite Ht, Hds.
Qed.

Lemma durations_length (lines : list string) (ds : list Z) :
  durations lines = map Ok ds -> len ds = len (filter is_request lines).
Proof.
  unfold durations, len; intros H.
  apply (f_equal (@List.length _)) in H; rewrite !length_map in H; lia.
Qed.

Lemma summarise_average (lines : list string) (m : Metrics) (r : Report) :
  summarise lines m = Ok r ->
  avg_response_time r = average (response_times m)
  /\ report_request_count r = request_count m
  /\ error_rate r
     = Qred (inject_Z (error_count m) / inject_Z (len lines)).
Proof.
  unfold summarise, truediv, average; intros H.
  apply bind_ok in H as (avg & Havg & H).
  apply bind_ok in H as (rate & Hrate & H).
  injection H as <-; cbn.
  destruct (len lines =? 0)%Z; [discriminate Hrate |].
  injection Hrate as <-.
  destruct (response_times m) as [| t ts]; [now injection Havg as <- |].
  destruct (len (t :: ts) =? 0)%Z; [discriminate Havg |].
  now injection Havg as <-.
Qed.

Lemma process_text_counts (chunk : string) (r : Report) :
  process_text chunk = Ok r ->
  report_request_count r = len (filter is_request (lines_of chunk))
  /\ error_rate r
     = Qred (inject_Z (len (filter has_error (lines_of chunk)))
             / inject_Z (len (lines_of chunk)))
  /\ exists ds,
       durations (lines_of chunk) = map Ok ds
       /\ avg_response_time r = average ds.
Proof.
  intros H.
  unfold process_text in H; apply bind_ok in H as (m & Hm & H).
  destruct (scan_returns_durations _ _ _ Hm) as (ds & Hds).
  rewrite (scan_durations _ metrics0 ds Hds) in Hm; injection Hm as <-.
  apply summarise_average in H as (Havg & Hrc & Hrate).
  cbn [error_count response_times request_count metrics0 app] in *.
  rewrite Hrc, Hrate, Havg, (durations_length _ _ Hds).
  split; [reflexivity |]; split; [reflexivity |].
  now exists ds.
Qed.

Lemma process_chunk_reads
    (fs : files) (path : string) (start size : Z) (r : Report) :
  process_chunk fs path start size = Ok r ->
  exists content chunk,
    fs path = Some content
    /\ read_at content start size = Ok chunk
    /\ process_text chunk = Ok r.
Proof.
  unfold process_chunk; destruct (fs path) as [content |]; [| discriminate].
  intros H; apply bind_ok in H as (chunk & Hread & H).
  now exists content, chunk.
Qed.

(** X2: when [process_chunk] returns, the request count is the number of
    lines that contain the processing-time pattern, the error rate is
    the number of lines that contain the error marker over the number
    of lines, and the average is taken over the durations of the
    request lines. *)
Theorem process_chunk_counts
    (fs : files) (path content chunk : string) (start size : Z) (r : Report) :
  fs path = Some content ->
  read_at content start size = Ok chunk ->
  process_chunk fs path start size = Ok r ->
  report_request_count r = len (filter is_request (lines_of chunk))
  /\ error_rate r
     = Qred (inject_Z (len (filter has_error (lines_of chunk)))
             / inject_Z (len (lines_of chunk)))
  /\ exists ds,
       durations (lines_of chunk) = map Ok ds
       /\ avg_response_time r = average ds.
Proof.
  intros Hfile Hread H.
  unfold process_chunk in H; rewrite Hfile, Hread in H; cbn [bind] in H.
  now apply process_text_counts.
Qed.

Lemma process_chunk_counts_witness :
  report_request_count (mkReport (1 # 5) 20 3)
  = len (filter is_request (lines_of (unlines ten_lines))).
Proof.
  apply (process_chunk_counts (one_file "app.log" (unlines ten_lines))
           "app.log" (unlines ten_lines) (unlines ten_lines) 0
           (Z.of_nat (String.length (unlines ten_lines)))
           (mkReport (1 # 5) 20 3)).
  - reflexivity.
  - reflexivity.
  - reflexivity.
Defined.

Lemma filter_len_le {A : Type} (f : A -> bool) (l : list A) :
  (0 <= len (filter f l) <= len l)%Z.
Proof.
  unfold len; pose proof (filter_length_le f l); lia.
Qed.

(** X3: when [process_chunk] returns, the error rate lies between 0 and 1
    and the request count is not negative. *)
Theorem process_chunk_bounds
    (fs : files) (path : string) (start size : Z) (r : Report) :
  process_chunk fs path start size = Ok r ->
  (0 <= error_rate r)%Q /\ (error_rate r <= 1)%Q
  /\ (0 <= report_request_count r)%Z.
Proof.
  intros H.
  destruct (process_chunk_reads _ _ _ _ _ H) as (content & chunk & _ & _ & Hp).
  destruct (process_text_counts _ _ Hp) as (Hrc & Hrate & _).
  pose proof (filter_len_le has_error (lines_of chunk)) as [He1 He2].
  pose proof (filter_len_le is_request (lines_of chunk)) as [Hr1 _].
  pose proof (lines_of_nonempty chunk) as Hl.
  assert (Hpos : (0 < inject_Z (len (lines_of chunk)))%Q).
  { rewrite <- (Zlt_Qlt 0); lia. }
  rewrite Hrate, Hrc, Qred_correct.
  split; [| split; [| exact Hr1]].
  - apply Qle_shift_div_l; [exact Hpos |].
    rewrite Qmult_0_l; rewrite <- (Zle_Qle 0); exact He1.
  - apply Qle_shift_div_r; [exact Hpos |].
    rewrite Qmult_1_l; rewrite <- Zle_Qle; exact He2.
Qed.

Lemma process_chunk_bounds_witness :
  (0 <= error_rate (mkReport (1 # 5) 20 3))%Q
  /\ (error_rate (mkReport (1 # 5) 20 3) <= 1)%Q
  /\ (0 <= report_request_count (mkReport (1 # 5) 20 3))%Z.
Proof.
  apply (process_chunk_bounds (one_file "app.log" (unlines ten_lines))
           "app.log" 0 (Z.of_nat (String.length (unlines ten_lines)))).
  reflexivity.
Defined.

(** ** Empty and blank chunks *)

Lemma lstrip_blank (s : string) :
  blank s = true -> lstrip_with is_space s = "".
Proof.
  induction s as [| c s IH]; [reflexivity |]; cbn [blank lstrip_with].
  intros H; apply andb_true_iff in H as [Hc Hs]; rewrite Hc; now apply IH.
Qed.

Lemma strip_blank (s : string) : blank s = true -> strip s = "".
Proof. intros H; unfold strip; now rewrite (lstrip_blank s H). Qed.

Lemma process_text_blank (chunk : string) :
  blank chunk = true -> process_text chunk = Ok empty_report.
Proof.
  intros H; unfold process_text, lines_of; rewrite (strip_blank chunk H).
  reflexivity.
Qed.

Lemma substring_nothing (s : string) : forall n, substring n 0 s = "".
Proof.
  induction s as [| c s IH]; intros [| n]; cbn [substring]; auto.
Qed.

Lemma substring_past (s : string) :
  forall n m, (String.length s <= n)%nat -> substring n m s = "".
Proof.
  induction s as [| c s IH]; intros n m H.
  - destruct n, m; reflexivity.
  - destruct n as [| n]; cbn [String.length] in H; [lia |].
    cbn [substring]; apply IH; lia.
Qed.

(** X4: a chunk of white space only (blank lines, or nothing at all) is
    reported as one line without error and without request: all three
    numbers are 0. *)
Theorem process_chunk_blank
    (fs : files) (path content chunk : string) (start size : Z) :
  fs path = Some content ->
  read_at content start size = Ok chunk ->
  blank chunk = true ->
  process_chunk fs path start size = Ok empty_report.
Proof.
  intros Hfile Hread Hblank.
  unfold process_chunk; rewrite Hfile, Hread; cbn [bind].
  now apply process_text_blank.
Qed.

Lemma process_chunk_blank_witness :
  process_chunk (one_file "app.log" (unlines [""; " "; ""])) "app.log" 0 4
  = Ok empty_report.
Proof.
  apply (process_chunk_blank (one_file "app.log" (unlines [""; " "; ""]))
           "app.log" (unlines [""; " "; ""]) (unlines [""; " "; ""]) 0 4).
  - reflexivity.
  - reflexivity.
  - reflexivity.
Defined.

(** X5: a range within reach that starts at or after the end of the
    file, or has size 0, is no error for [process_chunk]: the chunk
    read is empty and the report is all zeros. *)
Theorem process_chunk_out_of_range
    (fs : files) (path content : string) (start size : Z) :
  fs path = Some content ->
  in_reach (start, size) ->
  (Z.of_nat (String.length content) <= start)%Z \/ size = 0%Z ->
  process_chunk fs path start size = Ok empty_report.
Proof.
  intros Hfile [[Hstart _] _] Hrange; cbn [fst] in Hstart.
  unfold process_chunk, read_at; rewrite Hfile.
  destruct (Z.ltb_spec start 0) as [H | _]; [lia |].
  assert (Hread : forall m,
             (m = 0%nat \/ (String.length content <= Z.to_nat start)%nat) ->
             substring (Z.to_nat start) m content = "").
  { intros m [-> | H]; [apply substring_nothing | now apply substring_past]. }
  destruct (Z.ltb_spec size 0) as [Hneg | Hpos]; cbn [bind].
  - rewrite Hread; [reflexivity |].
    destruct Hrange as [H | H]; [right; lia | lia].
  - rewrite Hread; [reflexivity |].
    destruct Hrange as [H | ->]; [right; lia | now left].
Qed.

Lemma process_chunk_out_of_range_witness :
  process_chunk (one_file "app.log" two_lines) "app.log" 100 7
  = Ok empty_report.
Proof.
  apply (process_chunk_out_of_range (one_file "app.log" two_lines)
           "app.log" two_lines 100 7).
  - reflexivity.
  - unfold in_reach, offset_limit; cbn [fst snd]; lia.
  - left; vm_compute; discriminate.
Defined.

(** ** White space around a chunk *)

Lemma rstrip_blank_app (s post : string) :
  blank post = true ->
  rstrip_with is_space (s ++ post) = rstrip_with is_space s.
Proof.
  intros H; induction s as [| c s IH].
  - cbn [append rstrip_with]; now apply rstrip_spaces, lstrip_blank.
  - cbn [append rstrip_with]; now rewrite IH.
Qed.

Lemma strip_blank_app (s post : string) :
  blank post = true -> strip (s ++ post) = strip s.
Proof.
  intros H; unfold strip; induction s as [| c s IH].
  - cbn [append]; now rewrite (lstrip_blank post H).
  - cbn [append lstrip_with]; destruct (is_space c); [exact IH |].
    exact (rstrip_blank_app (String c s) post H).
Qed.

Lemma strip_blank_prefix (pre s : string) :
  blank pre = true -> strip (pre ++ s) = strip s.
Proof.
  intros H; unfold strip; f_equal.
  induction pre as [| c pre IH]; [reflexivity |].
  cbn [blank] in H; apply andb_true_iff in H as [Hc H].
  cbn [append lstrip_with]; rewrite Hc; now apply IH.
Qed.

(** X7: white space before and after the content of a file does not change
    what [process_chunk] reports for the whole file. *)
Theorem process_chunk_ignores_outer_space
    (fs : files) (path path' pre chunk post : string) :
  fs path = Some (pre ++ chunk ++ post) ->
  fs path' = Some chunk ->
  blank pre = true ->
  blank post = true ->
  process_chunk fs path 0 (Z.of_nat (String.length (pre ++ chunk ++ post)))
  = process_chunk fs path' 0 (Z.of_nat (String.length chunk)).
Proof.
  intros Hfile Hfile' Hpre Hpost.
  unfold process_chunk; rewrite Hfile, Hfile', !read_at_all; cbn [bind].
  unfold process_text, lines_of.
  now rewrite (strip_blank_prefix pre _ Hpre), (strip_blank_app chunk post Hpost).
Qed.

Lemma process_chunk_ignores_outer_space_witness :
  process_chunk
    (fun p => if String.eqb p "a.log" then Some ("  " ++ "ERROR x" ++ " ")
              else Some "ERROR x")
    "a.log" 0 10
  = process_chunk
      (fun p => if String.eqb p "a.log" then Some ("  " ++ "ERROR x" ++ " ")
                else Some "ERROR x")
      "b.log" 0 7.
Proof.
  apply (process_chunk_ignores_outer_space
           (fun p => if String.eqb p "a.log" then Some ("  " ++ "ERROR x" ++ " ")
                     else Some "ERROR x")
           "a.log" "b.log" "  " "ERROR x" " ").
  - reflexivity.
  - reflexivity.
  - reflexivity.
  - reflexivity.
Defined.

(** ** The lines of a chunk *)

Lemma concat_cons (sep x y : string) (l : list string) :
  String.concat sep (x :: y :: l) = x ++ sep ++ String.concat sep (y :: l).
Proof. reflexivity. Qed.

Lemma concat_split_newline (s : string) :
  String.concat (String newline "") (split (String newline "") s) = s
  /\ forallb no_newline (split (String newline "") s) = true.
Proof.
  unfold split; induction s as [| c s [IH1 IH2]]; [split; reflexivity |].
  cbn [split_from]; rewrite prefix_newline.
  pose proof (split_from_nonempty (String newline "") s 0) as Hne.
  destruct (split_from (String newline "") 0 s) as [| p ps] eqn:E;
    [congruence |].
  destruct (Ascii.eqb_spec c newline) as [-> | Hc].
  - cbn [String.length Nat.sub]; rewrite E; split.
    + rewrite concat_cons, IH1; reflexivity.
    + cbn [forallb no_newline]; exact IH2.
  - split.
    + destruct ps as [| p' ps].
      * cbn [String.concat] in *; now rewrite IH1.
      * rewrite concat_cons in *; cbn [append] in *; now rewrite IH1.
    + cbn [forallb no_newline] in *.
      apply andb_true_iff in IH2 as [Hp Hps].
      apply Ascii.eqb_neq in Hc; now rewrite Hc, Hp, Hps.
Qed.

(** X8: the lines [process_chunk] scans lose nothing but the white space
    around the chunk: joined by line terminators they are the stripped
    chunk, and no line contains a line terminator. *)
Theorem lines_of_round_trip (chunk : string) :
  String.concat (String newline "") (lines_of chunk) = strip chunk
  /\ forallb no_newline (lines_of chunk) = true.
Proof. unfold lines_of; apply concat_split_newline. Qed.

(** ** The order of the lines *)

Lemma filter_permutation {A : Type} (f : A -> bool) (l l' : list A) :
  Permutation l l' -> Permutation (filter f l) (filter f l').
Proof.
  induction 1 as [| x l l' _ IH | x y l | l l' l'' _ IH1 _ IH2]; cbn [filter].
  - constructor.
  - destruct (f x); [now constructor | exact IH].
  - destruct (f x), (f y); try apply Permutation_refl.
    apply perm_swap.
  - now transitivity (filter f l').
Qed.

Lemma whole_lines_permutation (ls ls' : list string) :
  Permutation ls ls' -> whole_lines ls = true -> whole_lines ls' = true.
Proof.
  intros Hp H.
  assert (Hall : forallb tidy ls' = true).
  { destruct ls as [| l ls]; [discriminate H |]; unfold whole_lines in H.
    rewrite forallb_forall in *; intros x Hx; apply H.
    now apply (Permutation_in _ (Permutation_sym Hp)). }
  destruct ls' as [| l' ls']; [| exact Hall].
  apply Permutation_sym, Permutation_nil in Hp; subst; discriminate H.
Qed.

Lemma summarise_ext (ls ls' : list string) (m m' : Metrics) :
  len ls = len ls' ->
  error_count m = error_count m' ->
  request_count m = request_count m' ->
  sum (response_times m) = sum (response_times m') ->
  len (response_times m) = len (response_times m') ->
  summarise ls m = summarise ls' m'.
Proof.
  unfold summarise; intros -> -> -> Hs Hl.
  destruct (response_times m) as [| t ts], (response_times m') as [| t' ts'];
    try (unfold len in Hl; cbn in Hl; lia); [reflexivity |].
  now rewrite Hs, Hl.
Qed.

Lemma scan_permutation (ls ls' : list string) (m : Metrics) :
  Permutation ls ls' ->
  scan metrics0 ls = Ok m ->
  exists m',
    scan metrics0 ls' = Ok m'
    /\ error_count m = error_count m'
    /\ request_count m = request_count m'
    /\ sum (response_times m) = sum (response_times m')
    /\ len (response_times m) = len (response_times m').
Proof.
  intros Hp Hm.
  destruct (scan_returns_durations _ _ _ Hm) as (ds & Hds).
  assert (Hd : Permutation (durations ls') (map Ok ds)).
  { rewrite <- Hds; unfold durations.
    now apply Permutation_map, filter_permutation, Permutation_sym. }
  apply Permutation_map_inv in Hd as (ds' & Hds' & Hperm).
  rewrite (scan_durations _ metrics0 ds Hds) in Hm; injection Hm as <-.
  rewrite (scan_durations _ metrics0 ds' Hds').
  eexists; split; [reflexivity |].
  cbn [error_count request_count response_times metrics0 app].
  unfold len.
  rewrite (Permutation_length (filter_permutation has_error _ _ Hp)).
  rewrite (Permutation_length Hperm), (sum_permutation _ _ Hperm).
  repeat split.
Qed.

Lemma process_lines_permutation (ls ls' : list string) :
  Permutation ls ls' ->
  (m <- scan metrics0 ls ;; summarise ls m)
  = (m <- scan metrics0 ls' ;; summarise ls' m).
Proof.
  intros Hp.
  assert (Hlen : len ls = len ls')
    by (unfold len; now rewrite (Permutation_length Hp)).
  destruct (scan metrics0 ls) as [m | e] eqn:E.
  - destruct (scan_permutation _ _ _ Hp E) as (m' & -> & H1 & H2 & H3 & H4).
    cbn [bind]; now apply summarise_ext.
  - destruct (scan metrics0 ls') as [m' | e'] eqn:E'.
    + destruct (scan_permutation _ _ _ (Permutation_sym Hp) E')
        as (m & Hm & _); congruence.
    + cbn [bind].
      now rewrite (scan_raises _ _ _ E), (scan_raises _ _ _ E').
Qed.

(** X9: the report does not depend on the order of the lines: two files
    holding the same tidy lines in different orders give the same
    report, or both raise [ValueError]. *)
Theorem process_chunk_line_order
    (fs : files) (path path' : string) (ls ls' : list string) :
  fs path = Some (unlines ls) ->
  fs path' = Some (unlines ls') ->
  whole_lines ls = true ->
  Permutation ls ls' ->
  process_chunk fs path 0 (Z.of_nat (String.length (unlines ls)))
  = process_chunk fs path' 0 (Z.of_nat (String.length (unlines ls'))).
Proof.
  intros Hfile Hfile' Hls Hp.
  unfold process_chunk; rewrite Hfile, Hfile', !read_at_all; cbn [bind].
  rewrite (process_text_unlines ls Hls).
  rewrite (process_text_unlines ls' (whole_lines_permutation _ _ Hp Hls)).
  now apply process_lines_permutation.
Qed.

Lemma process_chunk_line_order_witness :
  process_chunk
    (fun p => if String.eqb p "a.log" then Some (unlines ["ERROR x"; "ok"])
              else Some (unlines ["ok"; "ERROR x"]))
    "a.log" 0 11
  = process_chunk
      (fun p => if String.eqb p "a.log" then Some (unlines ["ERROR x"; "ok"])
                else Some (unlines ["ok"; "ERROR x"]))
      "b.log" 0 11.
Proof.
  apply (process_chunk_line_order
           (fun p => if String.eqb p "a.log" then Some (unlines ["ERROR x"; "ok"])
                     else Some (unlines ["ok"; "ERROR x"]))
           "a.log" "b.log" ["ERROR x"; "ok"] ["ok"; "ERROR x"]).
  - reflexivity.
  - reflexivity.
  - reflexivity.
  - apply perm_swap.
Defined.

(** ** Request lines in the expected format *)

Ltac by_cases_on_char c :=
  destruct c as [[|] [|] [|] [|] [|] [|] [|] [|]];
  try reflexivity; try discriminate.

Lemma every_impl (q q' : ascii -> bool) (s : string) :
  (forall c, q c = true -> q' c = true) ->
  every q s = true -> every q' s = true.
Proof.
  intros Hq; induction s as [| c s IH]; [reflexivity |]; cbn [every].
  intros H; apply andb_true_iff in H as [Hc Hs].
  now rewrite (Hq c Hc), (IH Hs).
Qed.

Lemma every_app (q : ascii -> bool) (a b : string) :
  every q (a ++ b) = every q a && every q b.
Proof.
  induction a as [| c a IH]; [reflexivity |].
  cbn [append every]; now rewrite IH, andb_assoc.
Qed.

Lemma lstrip_none (p : ascii -> bool) (s : string) :
  every (fun c => negb (p c)) s = true -> lstrip_with p s = s.
Proof.
  destruct s as [| c s]; [reflexivity |]; cbn [every lstrip_with].
  intros H; apply andb_true_iff in H as [Hc _].
  apply negb_true_iff in Hc; now rewrite Hc.
Qed.

Lemma rstrip_none (p : ascii -> bool) (s : string) :
  every (fun c => negb (p c)) s = true -> rstrip_with p s = s.
Proof.
  induction s as [| c s IH]; [reflexivity |]; cbn [every rstrip_with].
  intros H; apply andb_true_iff in H as [Hc Hs].
  apply negb_true_iff in Hc; rewrite (IH Hs), Hc.
  now destruct s.
Qed.

Lemma rstrip_every (p : ascii -> bool) (s u : string) :
  every p u = true -> rstrip_with p (s ++ u) = rstrip_with p s.
Proof.
  intros Hu; induction s as [| c s IH].
  - cbn [append rstrip_with].
    induction u as [| d u IHu]; [reflexivity |].
    cbn [every] in Hu; apply andb_true_iff in Hu as [Hd Hu].
    cbn [rstrip_with]; now rewrite (IHu Hu), Hd.
  - cbn [append rstrip_with]; now rewrite IH.
Qed.

Lemma split_without_i (t : string) :
  every (fun c => negb (Ascii.eqb c "i")) t = true -> split "in" t = [t].
Proof.
  unfold split; induction t as [| c t IH]; [reflexivity |]; cbn [every].
  intros H; apply andb_true_iff in H as [Hc Ht].
  apply negb_true_iff, Ascii.eqb_neq in Hc.
  cbn [split_from String.prefix].
  destruct (ascii_dec "i" c) as [E | _]; [congruence |].
  now rewrite (IH Ht).
Qed.

Lemma str_in_without_E (s : string) :
  every (fun c => negb (Ascii.eqb c "E")) s = true -> str_in "ERROR" s = false.
Proof.
  induction s as [| c s IH]; [reflexivity |]; cbn [every].
  intros H; apply andb_true_iff in H as [Hc Hs].
  apply negb_true_iff, Ascii.eqb_neq in Hc.
  cbn [str_in String.prefix].
  destruct (ascii_dec "E" c) as [E | _]; [congruence |].
  now rewrite (IH Hs).
Qed.

Lemma no_newline_every (s : string) :
  every (fun c => negb (Ascii.eqb c newline)) s = true -> no_newline s = true.
Proof.
  induction s as [| c s IH]; [reflexivity |]; cbn [every no_newline].
  intros H; apply andb_true_iff in H as [Hc Hs]; now rewrite Hc, (IH Hs).
Qed.

Lemma ends_tidy_every (s : string) :
  s <> "" ->
  every (fun c => negb (is_space c)) s = true -> ends_tidy s = true.
Proof.
  induction s as [| c s IH]; [congruence |]; intros _; cbn [every].
  intros H; apply andb_true_iff in H as [Hc Hs].
  destruct s as [| d s]; [exact Hc |].
  cbn [ends_tidy]; apply IH; [discriminate | exact Hs].
Qed.

Lemma append_empty (s : string) : s ++ "" = s.
Proof. induction s as [| c s IH]; [reflexivity | cbn; now rewrite IH]. Qed.

Lemma strip_tidy (l : string) :
  starts_tidy l = true -> ends_tidy l = true -> strip l = l.
Proof.
  intros Hs He; unfold strip.
  rewrite <- (append_empty l) at 1.
  rewrite (lstrip_tidy is_space l "" Hs).
  now apply rstrip_tidy.
Qed.

(** *** Decimal numerals *)

Lemma uint_digits (u : Decimal.uint) :
  all_in "0123456789" (DecimalString.NilEmpty.string_of_uint u) = true.
Proof. induction u; cbn; auto. Qed.

Lemma decimal_digits (n : nat) : all_in "0123456789" (decimal n) = true.
Proof. apply uint_digits. Qed.

Lemma to_uint_not_nil (n : nat) : Nat.to_uint n <> Decimal.Nil.
Proof.
  pose proof (DecimalNat.Unsigned.to_of (Nat.to_uint n)) as H.
  rewrite DecimalNat.Unsigned.of_to in H; rewrite H.
  apply DecimalFacts.unorm_nonnil.
Qed.

Lemma decimal_not_empty (n : nat) : decimal n <> "".
Proof.
  unfold decimal; pose proof (to_uint_not_nil n) as H.
  destruct (Nat.to_uint n); [congruence | ..]; discriminate.
Qed.

Lemma int_digits_uint (u : Decimal.uint) :
  forall (acc : nat) (after_digit : bool),
    u <> Decimal.Nil \/ after_digit = true ->
    int_digits (Z.of_nat acc) after_digit
               (DecimalString.NilEmpty.string_of_uint u)
    = Some (Z.of_nat (Nat.of_uint_acc u acc)).
Proof.
  induction u; intros acc b H;
    cbn [DecimalString.NilEmpty.string_of_uint Nat.of_uint_acc int_digits].
  1: { destruct H as [H | ->]; [congruence | reflexivity]. }
  all: change (is_digit _) with true; cbv iota;
    rewrite <- (IHu _ true) by (now right); f_equal;
    rewrite Nat.tail_mul_spec; unfold digit_value;
    match goal with
    | |- context [nat_of_ascii ?c] =>
        let v := eval vm_compute in (Z.of_nat (nat_of_ascii c)) in
        change (Z.of_nat (nat_of_ascii c)) with v
    end; lia.
Qed.

Lemma int_digits_decimal (n : nat) :
  int_digits 0 false (decimal n) = Some (Z.of_nat n).
Proof.
  pose proof (int_digits_uint (Nat.to_uint n) 0 false
                (or_introl (to_uint_not_nil n))) as H.
  change (Z.of_nat 0) with 0%Z in H.
  change (Nat.of_uint_acc (Nat.to_uint n) 0) with (Nat.of_uint (Nat.to_uint n)) in H.
  rewrite DecimalNat.Unsigned.of_to in H; exact H.
Qed.

Lemma digit_is_no_space (c : ascii) :
  char_in c "0123456789" = true -> negb (is_space c) = true.
Proof. by_cases_on_char c. Qed.

Lemma digit_is_no_unit (c : ascii) :
  char_in c "0123456789" = true -> negb (char_in c "ms") = true.
Proof. by_cases_on_char c. Qed.

Lemma tail_char_is_no_space (c : ascii) :
  char_in c "0123456789ms" = true -> negb (is_space c) = true.
Proof. by_cases_on_char c. Qed.

Lemma tail_char_is_no_i (c : ascii) :
  char_in c " 0123456789ms" = true -> negb (Ascii.eqb c "i") = true.
Proof. by_cases_on_char c. Qed.

Lemma tail_char_is_no_E (c : ascii) :
  char_in c "0123456789ms" = true -> negb (Ascii.eqb c "E") = true.
Proof. by_cases_on_char c. Qed.

Lemma tail_char_is_no_newline (c : ascii) :
  char_in c "0123456789ms" = true -> negb (Ascii.eqb c newline) = true.
Proof. by_cases_on_char c. Qed.

Lemma all_in_weaken (cs cs' s : string) :
  (forall c, char_in c cs = true -> char_in c cs' = true) ->
  all_in cs s = true -> all_in cs' s = true.
Proof. intros H; unfold all_in; now apply every_impl. Qed.

Lemma digits_in_tail (c : ascii) :
  char_in c "0123456789" = true -> char_in c "0123456789ms" = true.
Proof. by_cases_on_char c. Qed.

Lemma unit_in_tail (c : ascii) :
  char_in c "ms" = true -> char_in c "0123456789ms" = true.
Proof. by_cases_on_char c. Qed.

Lemma tail_in_spaced (c : ascii) :
  char_in c "0123456789ms" = true -> char_in c " 0123456789ms" = true.
Proof. by_cases_on_char c. Qed.

Lemma tail_chars (n : nat) (unit : string) :
  all_in "ms" unit = true ->
  all_in "0123456789ms" (decimal n ++ unit) = true.
Proof.
  intros Hu; unfold all_in; rewrite every_app.
  apply andb_true_iff; split.
  - exact (all_in_weaken _ _ _ digits_in_tail (decimal_digits n)).
  - exact (all_in_weaken _ _ _ unit_in_tail Hu).
Qed.

Lemma int_spaced_decimal (n : nat) :
  int (String " " (decimal n)) = Ok (Z.of_nat n).
Proof.
  unfold int, strip; cbn [lstrip_with]; change (is_space " ") with true; cbv iota.
  rewrite lstrip_none, rstrip_none
    by (exact (every_impl _ _ _ digit_is_no_space (decimal_digits n))).
  pose proof (int_digits_decimal n) as Hd.
  pose proof (decimal_digits n) as Hall.
  pose proof (decimal_not_empty n) as Hne.
  destruct (decimal n) as [| c r]; [congruence |].
  unfold all_in in Hall; cbn [every] in Hall.
  apply andb_true_iff in Hall as [Hc _].
  assert (Hsign : (if Ascii.eqb c "+" then true else Ascii.eqb c "-") = false)
    by (revert Hc; by_cases_on_char c).
  destruct (Ascii.eqb_spec c "+") as [-> | Hplus]; [discriminate Hsign |].
  destruct (Ascii.eqb_spec c "-") as [-> | Hminus]; [discriminate Hsign |].
  assert (Hbody : match String c r with
                  | String "+" r0 => (1, r0)
                  | String "-" r0 => (-1, r0)
                  | _ => (1, String c r)
                  end = (1%Z, String c r)).
  { revert Hplus Hminus; clear; intros Hplus Hminus.
    destruct c as [[|] [|] [|] [|] [|] [|] [|] [|]]; try reflexivity; congruence. }
  rewrite Hbody; cbn [fst snd]; rewrite Hd; f_equal; lia.
Qed.

Lemma split_in_prefix (pre rest : string) :
  every (fun c => negb (Ascii.eqb c "i")) pre = true ->
  split "in" (pre ++ String "i" (String "n" rest)) = pre :: split "in" rest.
Proof.
  unfold split; induction pre as [| c pre IH]; cbn [every].
  - intros _; cbn [append split_from String.prefix].
    destruct (ascii_dec "i" "i") as [_ | H]; [| congruence].
    destruct (ascii_dec "n" "n") as [_ | H]; [| congruence].
    now destruct rest.
  - intros H; apply andb_true_iff in H as [Hc Hpre].
    apply negb_true_iff, Ascii.eqb_neq in Hc.
    cbn [append split_from String.prefix].
    destruct (ascii_dec "i" c) as [E | _]; [congruence |].
    now rewrite (IH Hpre).
Qed.

Lemma time_taken_request_line (n : nat) (unit : string) :
  all_in "ms" unit = true ->
  time_taken (request_line n unit) = Ok (Z.of_nat n).
Proof.
  intros Hu; unfold time_taken, request_line.
  change ("Request processed in " ++ decimal n ++ unit)
    with ("Request processed "
          ++ String "i" (String "n" (String " " (decimal n ++ unit)))).
  rewrite split_in_prefix by reflexivity.
  rewrite split_without_i.
  2: { apply (every_impl _ _ _ tail_char_is_no_i).
       cbn [every]; apply andb_true_iff; split; [reflexivity |].
       exact (all_in_weaken _ _ _ tail_in_spaced (tail_chars n unit Hu)). }
  cbn [last].
  unfold strip_chars; cbn [lstrip_with].
  change (char_in " " "ms") with false; cbv iota.
  change (String " " (decimal n ++ unit)) with (String " " (decimal n) ++ unit).
  rewrite rstrip_every by exact Hu.
  rewrite rstrip_none.
  - apply int_spaced_decimal.
  - cbn [every]; apply andb_true_iff; split; [reflexivity |].
    exact (every_impl _ _ _ digit_is_no_unit (decimal_digits n)).
Qed.

Lemma request_line_is_request (n : nat) (unit : string) :
  is_request (request_line n unit) = true.
Proof. reflexivity. Qed.

Lemma request_line_has_no_error (n : nat) (unit : string) :
  all_in "ms" unit = true -> has_error (request_line n unit) = false.
Proof.
  intros Hu; unfold has_error, request_line.
  change ("Request processed in " ++ decimal n ++ unit)
    with ("Request processed in " ++ (decimal n ++ unit)).
  apply str_in_without_E; rewrite every_app.
  apply andb_true_iff; split; [reflexivity |].
  exact (every_impl _ _ _ tail_char_is_no_E (tail_chars n unit Hu)).
Qed.

Lemma request_line_alone (n : nat) (unit : string) :
  all_in "ms" unit = true ->
  lines_of (request_line n unit) = [request_line n unit].
Proof.
  intros Hu; unfold lines_of.
  assert (Htail : decimal n ++ unit <> "").
  { pose proof (decimal_not_empty n); destruct (decimal n); [congruence | discriminate]. }
  rewrite strip_tidy.
  - apply split_last_line.
    unfold request_line.
    change ("Request processed in " ++ decimal n ++ unit)
      with ("Request processed in " ++ (decimal n ++ unit)).
    apply no_newline_every; rewrite every_app.
    apply andb_true_iff; split; [reflexivity |].
    exact (every_impl _ _ _ tail_char_is_no_newline (tail_chars n unit Hu)).
  - reflexivity.
  - unfold request_line; apply ends_tidy_app, ends_tidy_every; [exact Htail |].
    exact (every_impl _ _ _ tail_char_is_no_space (tail_chars n unit Hu)).
Qed.

(** X10: a request line in the expected format is read back exactly:
    for every natural number [n] below [duration_limit] written in
    decimal, the line made of the pattern, [n] and a unit spelled with
    the letters m and s only (ms, s, m, or none) is a request line, is
    no error line, and carries the duration [n]; alone in a chunk it is
    reported as one request of average [n] with error rate 0.  The unit
    is not checked. *)
Theorem request_line_round_trip (n : nat) (unit : string) :
  (Z.of_nat n < duration_limit)%Z ->
  all_in "ms" unit = true ->
  is_request (request_line n unit) = true
  /\ has_error (request_line n unit) = false
  /\ time_taken (request_line n unit) = Ok (Z.of_nat n)
  /\ process_text (request_line n unit)
     = Ok (mkReport 0 (inject_Z (Z.of_nat n)) 1).
Proof.
  intros _ Hu.
  pose proof (time_taken_request_line n unit Hu) as Ht.
  pose proof (request_line_has_no_error n unit Hu) as He.
  split; [reflexivity |]; split; [exact He |]; split; [exact Ht |].
  unfold process_text; rewrite (request_line_alone n unit Hu).
  cbn [scan]; unfold scan_line; fold (has_error (request_line n unit)).
  rewrite He; fold (is_request (request_line n unit)).
  rewrite request_line_is_request, Ht; cbn [bind].
  unfold summarise, truediv; cbn [response_times error_count request_count
    metrics0 app bind len List.length sum fold_left Z.of_nat Z.eqb
    Pos.of_succ_nat Z.add].
  do 2 f_equal.
  unfold inject_Z, Qdiv, Qmult, Qinv; cbn [Qnum Qden Pos.mul].
  rewrite Z.mul_1_r; apply Qcanon.Qred_identity; cbn [Qnum Qden].
  apply Z.gcd_1_r.
Qed.

Lemma request_line_round_trip_witness :
  time_taken (request_line 250 "ms") = Ok 250%Z.
Proof.
  apply (request_line_round_trip 250 "ms"); reflexivity.
Defined.

(** ** More on [handle_worker_failure] *)

(** X15: handling the failure of the same worker a second time raises
    [KeyError] and changes nothing: the first handling has removed the
    worker (or it was never registered). *)
Theorem handle_worker_failure_twice
    (self : Coordinator) (fs : files) (w : string) :
  handle_worker_failure (fst (handle_worker_failure self fs w)) fs w
  = (fst (handle_worker_failure self fs w), Raise KeyError).
Proof.
  assert (Hgone : dict_get w (workers (fst (handle_worker_failure self fs w)))
                  = None).
  { destruct (dict_get w (workers self)) as [task |] eqn:E.
    - rewrite (handle_worker_failure_registry self fs w task E); cbn.
      apply dict_get_del_same.
    - unfold handle_worker_failure, dict_pop; now rewrite E. }
  unfold handle_worker_failure at 1, dict_pop; now rewrite Hgone.
Qed.


(** ** Sizes that are negative or too large *)

Lemma substring_empty (n m : nat) : substring n m "" = "".
Proof. destruct n, m; reflexivity. Qed.

Lemma substring_rest (s : string) :
  forall n m,
    (String.length s - n <= m)%nat ->
    substring n m s = substring n (String.length s - n) s.
Proof.
  induction s as [| c s IH]; intros n m H.
  - now rewrite !substring_empty.
  - destruct n as [| n]; cbn [String.length Nat.sub] in *.
    + destruct m as [| m]; [lia |].
      cbn [substring]; f_equal.
      rewrite (IH 0%nat m) by lia; now rewrite Nat.sub_0_r.
    + cbn [substring]; now apply IH.
Qed.

(** X6: the size is no bound that is checked: within reach, a negative
    size, like any size that reaches past the end of the file, makes
    [process_chunk] read from the start offset to the end of the
    file. *)
Theorem process_chunk_reads_to_end
    (fs : files) (path content : string) (start size : Z) :
  fs path = Some content ->
  in_reach (start, size) ->
  in_reach (start, Z.of_nat (String.length content)) ->
  (size < 0 \/ Z.of_nat (String.length content) - start <= size)%Z ->
  process_chunk fs path start size
  = process_chunk fs path start (Z.of_nat (String.length content)).
Proof.
  intros Hfile _ _ Hsize.
  unfold process_chunk, read_at; rewrite Hfile.
  destruct (Z.ltb_spec start 0) as [Hneg | Hstart]; [reflexivity |].
  destruct (Z.ltb_spec (Z.of_nat (String.length content)) 0) as [H | _]; [lia |].
  rewrite Nat2Z.id.
  rewrite (substring_rest content (Z.to_nat start) (String.length content)) by lia.
  destruct (Z.ltb_spec size 0) as [H | H]; [reflexivity |].
  now rewrite (substring_rest content (Z.to_nat start) (Z.to_nat size)) by lia.
Qed.

Lemma process_chunk_reads_to_end_witness :
  process_chunk (one_file "app.log" two_lines) "app.log" 8 (-1)
  = process_chunk (one_file "app.log" two_lines) "app.log" 8 15.
Proof.
  apply (process_chunk_reads_to_end (one_file "app.log" two_lines)
           "app.log" two_lines 8 (-1)).
  - reflexivity.
  - unfold in_reach, offset_limit; cbn [fst snd]; lia.
  - unfold in_reach, offset_limit; cbn [fst snd]; vm_compute; intuition congruence.
  - left; lia.
Defined.

(** ** How a call of [handle_worker_failure] ends *)

(** X19: no call of [handle_worker_failure] returns.  For a worker that
    is not registered the pop raises [KeyError] and the coordinator is
    as before; for a registered worker whose entry names no file the
    entry is removed and the lookup raises [KeyError]; otherwise the
    entry is removed and the redistribution raises [NameError]. *)
Theorem handle_worker_failure_never_returns
    (self : Coordinator) (fs : files) (w : string) :
  ~ returns_normally (snd (handle_worker_failure self fs w))
  /\ (dict_get w (workers self) = None ->
      handle_worker_failure self fs w = (self, Raise KeyError))
  /\ (forall task,
        dict_get w (workers self) = Some task ->
        handle_worker_failure self fs w
        = (set_workers self (dict_del w (workers self)),
           match dict_get "filepath" task with
           | None => Raise KeyError
           | Some _ => Raise NameError
           end)).
Proof.
  unfold handle_worker_failure, dict_pop, returns_normally.
  destruct (dict_get w (workers self)) as [task |] eqn:E.
  - split; [| split; [discriminate |]].
    + destruct (dict_get "filepath" task); cbn [snd];
        [rewrite distribute_work_raises |]; intros (a & H); discriminate H.
    + intros task' H; injection H as <-.
      destruct (dict_get "filepath" task); [| reflexivity].
      now rewrite distribute_work_raises.
  - split; [| split; [reflexivity | discriminate]].
    cbn [snd]; intros (a & H); discriminate H.
Qed.

(** ** The error rate of line-aligned chunks *)





